(** * The solver-chain planner of cvxpy/reductions/solvers/solving_chain.py

    A shallow embedding of [construct_solving_chain] and of the class
    [SolvingChain], written after the Python source line by line, with the
    exceptions Python raises made explicit in a small error monad.

    Reading conventions.
    - Line 66 of the source reads [sorted(candidate_qp_solvers, key s: ...)],
      which is not Python; it is read as [key=lambda s: ...], the form of the
      sibling call on lines 91-92.
    - Names are resolved with Python 3 scoping: the variable of a list
      comprehension or of a lambda is not visible outside of it.
    - What the file imports but does not define (the solver tables, the
      atom tables its TODO announces, the base class [Chain]) is gathered in
      the record [globals] and taken as a parameter. *)

From stdpp Require Import base strings list gmap.

Local Open Scope string_scope.
Local Open Scope list_scope.
Local Open Scope nat_scope.

(** ** Exceptions *)

(** An argument of a [%]-format: a string, or a list of solver names. *)
Inductive fmt_arg :=
| ArgStr (s : string)
| ArgList (l : list string).

(** The exceptions the module can raise.  A [SolverError] keeps the format
    string of the source together with the values it is applied to. *)
Inductive exn :=
| SolverError (template : string) (args : list fmt_arg)
| DCPError (msg : string)
| ValueError (msg : string)
| AttributeError (obj attr : string)
| NameError (name : string)
| KeyError (key : string)
| IndexError (msg : string)
| TypeError (msg : string)
| TypeError_arity (function : string) (takes given : nat).

Inductive result (A : Type) :=
| Ok (a : A)
| Raise (e : exn).
Arguments Ok {A} a.
Arguments Raise {A} e.

#[global] Instance result_ret : MRet result := λ A, @Ok A.
#[global] Instance result_bind : MBind result := λ A B f m,
  match m with
  | Ok a => f a
  | Raise e => Raise e
  end.

#[global] Instance result_fmap : FMap result := λ A B f m,
  match m with
  | Ok a => Ok (f a)
  | Raise e => Raise e
  end.

#[global] Instance fmt_arg_eq_dec : EqDecision fmt_arg.
Proof. solve_decision. Defined.
#[global] Instance exn_eq_dec : EqDecision exn.
Proof. solve_decision. Defined.

(** ** Data *)

(** The constraint classes of [cvxpy.constraints]; the planner imports
    [ExpCone], [PSD] and [SOC]. *)
Inductive constraint_class :=
| SOC
| ExpCone
| PSD
| OtherConstraint (cls : string).

#[global] Instance constraint_class_eq_dec : EqDecision constraint_class.
Proof. solve_decision. Defined.

(** A value of [SOLVER_MAP]: the attributes of a solver the planner reads. *)
Record Solver := {
  solver_name : string;
  MIP_CAPABLE : bool;
  SUPPORTED_CONSTRAINTS : list constraint_class
}.

#[global] Instance Solver_eq_dec : EqDecision Solver.
Proof. solve_decision. Defined.

(** The objects put in the list [reductions].  Lines 62 and 67-69 append
    instances; line 94 appends the classes [Dcp2Cone] and
    [ConeMatrixStuffing] themselves and the solver object [SLV_MAP[solver]]. *)
Inductive reduction :=
| FlipObjective
| Qp2SymbolicQp
| QpMatrixStuffing
| QpSolver (name : string)
| Dcp2Cone
| ConeMatrixStuffing
| ConicSolver (s : Solver).

#[global] Instance reduction_eq_dec : EqDecision reduction.
Proof. solve_decision. Defined.

(** [isinstance(r, Solver)]: the two terminal steps are solvers; the other
    instances are plain reductions and the two classes are not instances. *)
Definition isinstance_Solver (r : reduction) : bool :=
  match r with
  | QpSolver _ | ConicSolver _ => true
  | _ => false
  end.

(** The run-time class of [problem.objective]. *)
Inductive objective_class :=
| Minimize
| Maximize
| Subclass (name : string) (base : objective_class).

#[global] Instance objective_class_eq_dec : EqDecision objective_class.
Proof. solve_decision. Defined.

(** [issubclass(c, Maximize)], what [isinstance(objective, Maximize)] tests. *)
Fixpoint issubclass_Maximize (c : objective_class) : bool :=
  match c with
  | Minimize => false
  | Maximize => true
  | Subclass _ base => issubclass_Maximize base
  end.

(** What the planner asks of a problem.  An atom is represented by its
    run-time class, the only thing line 84-88 read from it. *)
Record Problem := {
  is_dcp : bool;
  is_mip : bool;
  is_qp : bool;
  objective : objective_class;
  atoms : list string
}.

(** The module-level names the file imports or expects. *)
Record globals := {
  SLV_MAP : gmap string Solver;
  INSTALLED_SOLVERS : list string;
  CONIC_SOLVERS : list string;
  QP_SOLVERS : list string;
  SOC_ATOMS : list string;
  EXP_ATOMS : list string;
  PSD_ATOMS : list string;
  (** the attribute [reductions] a fresh instance inherits from the class
      [Chain], if [Chain] declares one at class level *)
  Chain_reductions : option (list reduction)
}.

(** ** Python primitives *)

(** [d[k]] *)
Definition getitem (d : gmap string Solver) (k : string) : result Solver :=
  match d !! k with
  | Some v => Ok v
  | None => Raise (KeyError k)
  end.

(** [[x for x in l if f(x)]], where the test may raise *)
Fixpoint py_filter {A} (f : A → result bool) (l : list A) : result (list A) :=
  match l with
  | [] => Ok []
  | x :: l' =>
      b ← f x;
      r ← py_filter f l';
      Ok (if b : bool then x :: r else r)
  end.

(** [all(f(x) for x in l)]: stops at the first false value *)
Fixpoint py_all {A} (f : A → result bool) (l : list A) : result bool :=
  match l with
  | [] => Ok true
  | x :: l' =>
      b ← f x;
      if b : bool then py_all f l' else Ok false
  end.

(** [l.index(x)] *)
Fixpoint py_index (x : string) (l : list string) : result nat :=
  match l with
  | [] => Raise (ValueError ("'" +:+ x +:+ "' is not in list"))
  | y :: l' => if decide (x = y) then Ok 0 else S <$> py_index x l'
  end.

(** [sorted(l, key=lambda s: ref.index(s))]: the keys are computed first,
    then the list is sorted stably on them. *)
Fixpoint insert_by_key (x : nat * string) (l : list (nat * string)) : list (nat * string) :=
  match l with
  | [] => [x]
  | y :: l' => if decide (x.1 ≤ y.1) then x :: l else y :: insert_by_key x l'
  end.

Definition stable_sort (l : list (nat * string)) : list (nat * string) :=
  foldr insert_by_key [] l.

Fixpoint with_keys (ref l : list string) : result (list (nat * string)) :=
  match l with
  | [] => Ok []
  | x :: l' =>
      k ← py_index x ref;
      r ← with_keys ref l';
      Ok ((k, x) :: r)
  end.

Definition sorted_by_index (ref l : list string) : result (list string) :=
  ks ← with_keys ref l;
  Ok ((stable_sort ks).*2).

(** [', '.join(cones)] on a list of classes: only the empty list joins. *)
Definition join_classes (cones : list constraint_class) : result string :=
  match cones with
  | [] => Ok ""
  | _ :: _ => Raise (TypeError "sequence item 0: expected str instance, type found")
  end.

(** A name that is neither a local of the running function nor a global of
    the module nor a builtin. *)
Definition unbound_name {A} (name : string) : result A := Raise (NameError name).

(** [l.attr] for a list [l] and a name that is not a list attribute. *)
Definition list_getattr {A B} (l : list A) (attr : string) : result B :=
  Raise (AttributeError "list" attr).

(** ** class SolvingChain(Chain) *)

Module SolvingChain.

Record t := {
  problem_reductions : list reduction;
  solver : reduction
}.

(** [__init__(self, reductions=[])], lines 105-109.  The body reads
    [self.reductions] and never assigns it, nor does it call the
    constructor of [Chain]: [self_reductions] is what the attribute
    lookup finds on the fresh instance, [None] when [Chain] has no
    class-level [reductions].  The parameter [reductions] is not used. *)
Definition init (self_reductions : option (list reduction))
    (reductions : list reduction) : result t :=
  match self_reductions with
  | None => Raise (AttributeError "SolvingChain" "reductions")
  | Some rs =>
      match last rs with
      | None => Raise (IndexError "list index out of range")
      | Some r =>
          if negb (isinstance_Solver r)
          then Raise (ValueError "Solving chains must terminate with a Solver.")
          else Ok {| problem_reductions := removelast rs; solver := r |}
      end
  end.

(** [solve], lines 111-115.  The collaborators it calls are not part of the
    file: [apply] and [invert] are inherited from [Chain], [solve_via_data]
    belongs to the terminal solver; they are parameters, like the payloads
    they exchange. *)
Section solve.

Context {Data InverseData RawSolution Solution Options : Type}.

(** The objects a caller can pass. *)
Inductive value :=
| VChain (c : t)
| VProblem (p : Problem)
| VBool (b : bool)
| VOptions (o : Options).

Variable Chain_apply : value → value → result (Data * InverseData).
Variable Chain_invert : value → RawSolution → InverseData → result Solution.
Variable getattr_solver : value → result reduction.
Variable solve_via_data :
  reduction → Data → value → value → value → result RawSolution.

(** The function object [SolvingChain.solve] applied to the positional
    arguments [args].  Its signature is
    [def solve(problem, warm_start, verbose, solver_opts)]: four
    parameters, none of them [self]; the body then reads the name [self]. *)
Definition solve (args : list value) : result Solution :=
  match args with
  | [problem; warm_start; verbose; solver_opts] =>
      self ← unbound_name "self";
      '(data, inverse_data) ← Chain_apply self problem;
      slv ← getattr_solver self;
      solution ← solve_via_data slv data warm_start verbose solver_opts;
      Chain_invert self solution inverse_data
  | _ => Raise (TypeError_arity "solve" 4 (length args))
  end.

(** [chain.solve(a1, ..., an)]: a method call passes the instance as the
    first positional argument. *)
Definition call_solve (chain : t) (args : list value) : result Solution :=
  solve (VChain chain :: args).

(** What section 4.4 of the specification says [solve] does, in the same
    vocabulary: forward transforms, the native solve of the terminal solver,
    then the inverse transforms. *)
Definition solve_spec (chain : t) (problem : Problem) (warm_start verbose : bool)
    (solver_opts : Options) : result Solution :=
  '(data, inverse_data) ← Chain_apply (VChain chain) (VProblem problem);
  solution ← solve_via_data (solver chain) data
                (VBool warm_start) (VBool verbose) (VOptions solver_opts);
  Chain_invert (VChain chain) solution inverse_data.

End solve.

Arguments value : clear implicits.

End SolvingChain.

(** ** construct_solving_chain *)

(** Lines 39-44. *)
Definition resolve_candidates (g : globals) (solver : option string) : result (list string) :=
  match solver with
  | Some s =>
      if bool_decide (s ∈ INSTALLED_SOLVERS g)
      then Ok [s]
      else Raise (SolverError "Solver %s is not installed" [ArgStr s])
  | None => Ok (INSTALLED_SOLVERS g)
  end.

(** Lines 52-57. *)
Definition filter_mip (g : globals) (problem : Problem) (candidates : list string)
    : result (list string) :=
  if is_mip problem then
    candidates ← py_filter (λ s, slv ← getitem (SLV_MAP g) s; Ok (MIP_CAPABLE slv)) candidates;
    match candidates with
    | [] => Raise (SolverError
              "Problem is mixed integer, but candidate solvers (%s) are not MIP-capable."
              [ArgList candidates])
    | _ :: _ => Ok candidates
    end
  else Ok candidates.

(** Lines 60-62. *)
Definition initial_reductions (problem : Problem) : list reduction :=
  if decide (objective problem = Maximize) then [FlipObjective] else [].

(** Lines 80-89: the cones the atoms of the problem call for. *)
Definition required_cones (g : globals) (atoms : list string) : list constraint_class :=
  (if bool_decide (Exists (λ atom, atom ∈ SOC_ATOMS g) atoms) then [SOC] else []) ++
  (if bool_decide (Exists (λ atom, atom ∈ EXP_ATOMS g) atoms) then [ExpCone] else []) ++
  (if bool_decide (Exists (λ atom, atom ∈ PSD_ATOMS g) atoms) then [PSD] else []).

(** Lines 91-98: the loop over the sorted conic candidates.  In the test of
    line 93 the solver is called [s], a name bound nowhere in the function
    (the loop variable is [solver]). *)
Fixpoint conic_loop (g : globals) (cones : list constraint_class)
    (reductions : list reduction) (candidate_conic_solvers : list string)
    (todo : list string) : result (list reduction) :=
  match todo with
  | [] =>
      joined ← join_classes cones;
      Raise (SolverError
        "Candidate conic solvers (%s) do not support the cones output by the problem (%s)."
        [ArgList candidate_conic_solvers; ArgStr joined])
  | solver :: todo' =>
      ok ← py_all (λ c, s ← unbound_name "s";
                        Ok (bool_decide (c ∈ SUPPORTED_CONSTRAINTS s))) cones;
      if ok : bool then
        slv ← getitem (SLV_MAP g) solver;
        Ok (reductions ++ [Dcp2Cone; ConeMatrixStuffing; ConicSolver slv])
      else conic_loop g cones reductions candidate_conic_solvers todo'
  end.

(** Lines 59-98: the choice of a pipeline among the candidates. *)
Definition choose_pipeline (g : globals) (problem : Problem) (candidates : list string)
    : result (list reduction) :=
  let reductions := initial_reductions problem in
  let candidate_qp_solvers := filter (λ s, s ∈ candidates) (QP_SOLVERS g) in
  if bool_decide (candidate_qp_solvers ≠ []) && is_qp problem then
    solver ← sorted_by_index (QP_SOLVERS g) candidate_qp_solvers;
    name ← list_getattr solver "name";
    Ok (reductions ++ [Qp2SymbolicQp; QpMatrixStuffing; QpSolver name])
  else
    let candidate_conic_solvers := filter (λ s, s ∈ candidates) (CONIC_SOLVERS g) in
    match candidate_conic_solvers with
    | [] => Raise (SolverError
              "Problem could not be reduced to a QP, and no conic solvers exist among candidate solvers (%s)."
              [ArgList candidates])
    | _ :: _ =>
        let cones := required_cones g (atoms problem) in
        todo ← sorted_by_index (CONIC_SOLVERS g) candidate_conic_solvers;
        conic_loop g cones reductions candidate_conic_solvers todo
    end.

(** The list [reductions] at the two places that return,
    [return SolvingChain(reductions=reductions)] (lines 70 and 95), or the
    exception raised before. *)
Definition planned_reductions (g : globals) (problem : Problem) (solver : option string)
    : result (list reduction) :=
  candidates ← resolve_candidates g solver;
  if negb (is_dcp problem) then Raise (DCPError "Problem does not follow DCP rules.")
  else
    candidates ← filter_mip g problem candidates;
    choose_pipeline g problem candidates.

Definition construct_solving_chain (g : globals) (problem : Problem) (solver : option string)
    : result SolvingChain.t :=
  reductions ← planned_reductions g problem solver;
  SolvingChain.init (Chain_reductions g) reductions.

(** The test [SLV_MAP[s].MIP_CAPABLE] of line 53 as a total function, false
    on a name without an entry; used to state what the filter keeps. *)
Definition mip_capable (g : globals) (s : string) : bool :=
  match SLV_MAP g !! s with
  | Some slv => MIP_CAPABLE slv
  | None => false
  end.

(** Closed decidable facts about the examples are settled by evaluation. *)
Ltac by_evaluation := apply (bool_decide_unpack _); vm_compute; exact I.

(** ** A solver registry and some problems to run the planner on *)

Module Examples.

Definition ECOS : Solver :=
  {| solver_name := "ECOS"; MIP_CAPABLE := false;
     SUPPORTED_CONSTRAINTS := [SOC; ExpCone] |}.
Definition SCS : Solver :=
  {| solver_name := "SCS"; MIP_CAPABLE := false;
     SUPPORTED_CONSTRAINTS := [SOC; ExpCone; PSD] |}.
Definition ECOS_BB : Solver :=
  {| solver_name := "ECOS_BB"; MIP_CAPABLE := true;
     SUPPORTED_CONSTRAINTS := [SOC; ExpCone] |}.
Definition OSQP : Solver :=
  {| solver_name := "OSQP"; MIP_CAPABLE := false; SUPPORTED_CONSTRAINTS := [] |}.
Definition GUROBI : Solver :=
  {| solver_name := "GUROBI"; MIP_CAPABLE := true; SUPPORTED_CONSTRAINTS := [SOC] |}.

Definition registry : globals :=
  {| SLV_MAP := list_to_map [("ECOS", ECOS); ("SCS", SCS); ("ECOS_BB", ECOS_BB);
                             ("OSQP", OSQP); ("GUROBI", GUROBI)];
     INSTALLED_SOLVERS := ["ECOS"; "SCS"; "ECOS_BB"; "OSQP"];
     CONIC_SOLVERS := ["ECOS_BB"; "ECOS"; "SCS"; "GUROBI"];
     QP_SOLVERS := ["OSQP"; "GUROBI"];
     SOC_ATOMS := ["norm2"; "quad_over_lin"];
     EXP_ATOMS := ["exp"; "log"; "entr"];
     PSD_ATOMS := ["lambda_max"; "log_det"];
     Chain_reductions := None |}.

(** minimize a linear objective under linear constraints *)
Definition lp : Problem :=
  {| is_dcp := true; is_mip := false; is_qp := true;
     objective := Minimize; atoms := [] |}.

(** the same with a maximization, not recognised as a QP *)
Definition lp_max : Problem :=
  {| is_dcp := true; is_mip := false; is_qp := false;
     objective := Maximize; atoms := [] |}.

Definition lp_min : Problem :=
  {| is_dcp := true; is_mip := false; is_qp := false;
     objective := Minimize; atoms := [] |}.

(** an objective of a class derived from [Maximize] *)
Definition lp_submax : Problem :=
  {| is_dcp := true; is_mip := false; is_qp := false;
     objective := Subclass "WeightedMaximize" Maximize; atoms := [] |}.

(** a mixed-integer linear program, not recognised as a QP *)
Definition milp : Problem :=
  {| is_dcp := true; is_mip := true; is_qp := false;
     objective := Minimize; atoms := [] |}.

(** a linear objective under a second-order cone constraint *)
Definition socp : Problem :=
  {| is_dcp := true; is_mip := false; is_qp := false;
     objective := Minimize; atoms := ["norm2"] |}.

(** a problem that breaks the DCP rules *)
Definition nonconvex : Problem :=
  {| is_dcp := false; is_mip := false; is_qp := false;
     objective := Minimize; atoms := ["norm2"] |}.

(** The registry of the example of section 8 of the specification: two
    conic solvers, [SolverA] supporting the second-order cone and ranked
    first, [SolverB] supporting no cone. *)
Definition SolverA : Solver :=
  {| solver_name := "SolverA"; MIP_CAPABLE := false; SUPPORTED_CONSTRAINTS := [SOC] |}.
Definition SolverB : Solver :=
  {| solver_name := "SolverB"; MIP_CAPABLE := false; SUPPORTED_CONSTRAINTS := [] |}.

Definition registry_AB : globals :=
  {| SLV_MAP := list_to_map [("SolverA", SolverA); ("SolverB", SolverB)];
     INSTALLED_SOLVERS := ["SolverA"; "SolverB"];
     CONIC_SOLVERS := ["SolverA"; "SolverB"];
     QP_SOLVERS := [];
     SOC_ATOMS := ["norm2"; "quad_over_lin"];
     EXP_ATOMS := ["exp"; "log"; "entr"];
     PSD_ATOMS := ["lambda_max"; "log_det"];
     Chain_reductions := None |}.

(** The same two solvers with [SolverB] ranked first. *)
Definition registry_BA : globals :=
  {| SLV_MAP := list_to_map [("SolverA", SolverA); ("SolverB", SolverB)];
     INSTALLED_SOLVERS := ["SolverA"; "SolverB"];
     CONIC_SOLVERS := ["SolverB"; "SolverA"];
     QP_SOLVERS := [];
     SOC_ATOMS := ["norm2"; "quad_over_lin"];
     EXP_ATOMS := ["exp"; "log"; "entr"];
     PSD_ATOMS := ["lambda_max"; "log_det"];
     Chain_reductions := None |}.

(** Collaborators for [solve] that exchange numbers: every forward
    transform and every inverse succeeds. *)
Definition toy_apply (self problem : SolvingChain.value unit)
    : result (nat * nat) := Ok (1, 2).
Definition toy_invert (self : SolvingChain.value unit) (solution inverse_data : nat)
    : result nat := Ok (solution + inverse_data).
Definition toy_getattr_solver (self : SolvingChain.value unit) : result reduction :=
  match self with
  | SolvingChain.VChain c => Ok (SolvingChain.solver c)
  | _ => Raise (AttributeError "object" "solver")
  end.
Definition toy_solve_via_data (slv : reduction) (data : nat)
    (warm_start verbose solver_opts : SolvingChain.value unit) : result nat :=
  Ok (10 * data).

Definition toy_chain : SolvingChain.t :=
  {| SolvingChain.problem_reductions := [Dcp2Cone; ConeMatrixStuffing];
     SolvingChain.solver := ConicSolver ECOS |}.

End Examples.

(** The keys of [with_keys] when the reference list gets one more element
    in front: every position moves by one. *)
Definition shift_keys (ks : list (nat * string)) : list (nat * string) :=
  (λ p, (S p.1, p.2)) <$> ks.

(** ** Variations of the registry *)


Module Variations.

(** CVXOPT is installed and listed first among the conic solvers, but
    [SLV_MAP] has no entry for it. *)
Definition registry_missing : globals :=
  {| SLV_MAP := list_to_map [("ECOS", Examples.ECOS); ("ECOS_BB", Examples.ECOS_BB)];
     INSTALLED_SOLVERS := ["ECOS_BB"; "CVXOPT"; "ECOS"];
     CONIC_SOLVERS := ["CVXOPT"; "ECOS_BB"; "ECOS"];
     QP_SOLVERS := ["OSQP"];
     SOC_ATOMS := ["norm2"; "quad_over_lin"];
     EXP_ATOMS := ["exp"; "log"; "entr"];
     PSD_ATOMS := ["lambda_max"; "log_det"];
     Chain_reductions := None |}.

(** A base class [Chain] with a class-level attribute
    [reductions = [SLV_MAP["SCS"]]]. *)
Definition registry_class_attribute : globals :=
  {| SLV_MAP := SLV_MAP Examples.registry;
     INSTALLED_SOLVERS := INSTALLED_SOLVERS Examples.registry;
     CONIC_SOLVERS := CONIC_SOLVERS Examples.registry;
     QP_SOLVERS := QP_SOLVERS Examples.registry;
     SOC_ATOMS := SOC_ATOMS Examples.registry;
     EXP_ATOMS := EXP_ATOMS Examples.registry;
     PSD_ATOMS := PSD_ATOMS Examples.registry;
     Chain_reductions := Some [ConicSolver Examples.SCS] |}.

(** A mixed-integer problem that breaks the DCP rules. *)
Definition nonconvex_mip : Problem :=
  {| is_dcp := false; is_mip := true; is_qp := false;
     objective := Minimize; atoms := [] |}.

(** A problem recognised as a QP whose atoms call for the second-order
    cone. *)
Definition qp_soc : Problem :=
  {| is_dcp := true; is_mip := false; is_qp := true;
     objective := Minimize; atoms := ["quad_over_lin"] |}.

(** A list of conic solvers that names a solver twice. *)
Definition conic_with_duplicate : list string := ["ECOS"; "SCS"; "ECOS"].

End Variations.

(** * Properties *)

(** ** The error monad *)

Lemma bind_Ok {A B} (m : result A) (f : A → result B) (b : B) :
  m ≫= f = Ok b → ∃ a, m = Ok a ∧ f a = Ok b.
Proof. destruct m as [a|e]; [eauto | discriminate]. Qed.

Lemma fmap_Ok {A B} (m : result A) (f : A → B) (b : B) :
  f <$> m = Ok b → ∃ a, m = Ok a ∧ b = f a.
Proof. destruct m as [a|e]; [intros [= <-]; eauto | discriminate]. Qed.

(** ** Sorting on the position in a reference list *)

Lemma py_index_Ok (x : string) (ref : list string) :
  x ∈ ref → ∃ k, py_index x ref = Ok k.
Proof.
  induction ref as [|y ref IH]; intros Hin; [by apply elem_of_nil in Hin|].
  simpl. destruct (decide (x = y)) as [->|Hne]; [eauto|].
  apply elem_of_cons in Hin as [?|Hin]; [done|].
  destruct (IH Hin) as [k ->]. simpl. eauto.
Qed.

Lemma with_keys_Ok (ref l : list string) :
  Forall (λ x, x ∈ ref) l → ∃ ks, with_keys ref l = Ok ks ∧ ks.*2 = l.
Proof.
  induction 1 as [|x l Hx _ [ks [IH1 IH2]]]; [by exists []|].
  destruct (py_index_Ok x ref Hx) as [k Hk].
  exists ((k, x) :: ks). split.
  - simpl. rewrite Hk. simpl. by rewrite IH1.
  - by rewrite fmap_cons, IH2.
Qed.

Lemma with_keys_snd (ref l : list string) ks :
  with_keys ref l = Ok ks → ks.*2 = l.
Proof.
  revert ks. induction l as [|x l IH]; intros ks; simpl.
  - by intros [= <-].
  - intros H. apply bind_Ok in H as (k & _ & H).
    apply bind_Ok in H as (r & Hr & [= <-]). by rewrite fmap_cons, (IH r Hr).
Qed.

Lemma insert_by_key_perm x l : insert_by_key x l ≡ₚ x :: l.
Proof.
  induction l as [|y l IH]; simpl; [done|].
  destruct (decide _); [done|]. rewrite IH. apply Permutation_swap.
Qed.

Lemma stable_sort_perm l : stable_sort l ≡ₚ l.
Proof.
  induction l as [|x l IH]; simpl; [done|].
  rewrite insert_by_key_perm. by rewrite IH.
Qed.

Lemma sorted_by_index_perm ref l l' :
  sorted_by_index ref l = Ok l' → l' ≡ₚ l.
Proof.
  unfold sorted_by_index. intros H.
  apply bind_Ok in H as (ks & Hks & [= <-]).
  rewrite <- (with_keys_snd _ _ _ Hks). by rewrite stable_sort_perm.
Qed.

Lemma sorted_by_index_filter_Ok (P : string → Prop) `{∀ x, Decision (P x)} ref :
  ∃ l', sorted_by_index ref (filter P ref) = Ok l'.
Proof.
  destruct (with_keys_Ok ref (filter P ref)) as (ks & Hks & _).
  - apply Forall_forall. intros x Hx. by apply list_elem_of_filter in Hx as [_ ?].
  - unfold sorted_by_index. rewrite Hks. simpl. eauto.
Qed.

(** The first element of the filtered reference list stays first: its
    position in the reference list is the least one. *)

Lemma insert_by_key_head x l :
  Forall (λ y, x.1 ≤ y.1) l → head (insert_by_key x l) = Some x.
Proof.
  destruct 1 as [|y l Hy _]; simpl; [done|]. by rewrite decide_True.
Qed.

Lemma with_keys_index ref l ks :
  with_keys ref l = Ok ks → Forall (λ p, py_index p.2 ref = Ok p.1 ∧ p.2 ∈ l) ks.
Proof.
  revert ks. induction l as [|x l IH]; intros ks; simpl.
  - intros [= <-]. constructor.
  - intros H. apply bind_Ok in H as (k & Hk & H).
    apply bind_Ok in H as (r & Hr & [= <-]). constructor.
    + split; [done | apply elem_of_cons; by left].
    + eapply Forall_impl; [exact (IH r Hr)|]. intros p [? ?].
      split; [done | apply elem_of_cons; by right].
Qed.

Lemma py_index_first (P : string → Prop) `{∀ x, Decision (P x)} ref x rest y k k' :
  filter P ref = x :: rest → P y →
  py_index x ref = Ok k → py_index y ref = Ok k' → k ≤ k'.
Proof.
  revert k k'. induction ref as [|z ref IH]; intros k k' Hf Hy; [done|].
  rewrite filter_cons in Hf. simpl. destruct (decide (P z)) as [Hz|Hz].
  - injection Hf as -> _. rewrite decide_True by done. intros [= <-] _. lia.
  - assert (P x) as Hx.
    { assert (x ∈ filter P ref) as Hin by (rewrite Hf; apply elem_of_cons; by left).
      by apply list_elem_of_filter in Hin as [? _]. }
    rewrite !decide_False by congruence.
    intros Hk Hk'. apply fmap_Ok in Hk as (j & Hj & ->).
    apply fmap_Ok in Hk' as (j' & Hj' & ->).
    specialize (IH j j' Hf Hy Hj Hj'). lia.
Qed.

Lemma sorted_by_index_head (P : string → Prop) `{∀ x, Decision (P x)} ref l' :
  sorted_by_index ref (filter P ref) = Ok l' → head l' = head (filter P ref).
Proof.
  unfold sorted_by_index. intros Hs.
  apply bind_Ok in Hs as (ks & Hks & [= <-]).
  pose proof (with_keys_index _ _ _ Hks) as Hidx.
  destruct (filter P ref) as [|x rest] eqn:Hf.
  - simpl in Hks. injection Hks as <-. done.
  - simpl in Hks. apply bind_Ok in Hks as (k & Hk & Hks).
    apply bind_Ok in Hks as (r & Hr & [= <-]).
    apply Forall_cons in Hidx as [_ Hidx].
    assert (head (stable_sort ((k, x) :: r)) = Some (k, x)) as Hhd.
    { simpl. apply insert_by_key_head.
      rewrite stable_sort_perm.
      eapply Forall_impl; [exact Hidx|]. intros [k' y] [Hy Hin]. simpl in *.
      assert (P y) as HPy.
      { assert (y ∈ filter P ref) as Hin' by (rewrite Hf; done).
        by apply list_elem_of_filter in Hin' as [? _]. }
      by eapply (py_index_first P ref x rest y). }
    destruct (stable_sort ((k, x) :: r)) as [|p ps]; [done|].
    injection Hhd as ->. done.
Qed.

(** ** The steps of the planner *)

Lemma py_filter_mip g (l r : list string) :
  py_filter (λ s, slv ← getitem (SLV_MAP g) s; Ok (MIP_CAPABLE slv)) l = Ok r →
  r = filter (λ s, mip_capable g s = true) l.
Proof.
  revert r. induction l as [|x l IH]; intros r; simpl.
  - by intros [= <-].
  - intros H. apply bind_Ok in H as (b & Hb & H).
    apply bind_Ok in H as (r' & Hr' & [= <-]).
    apply bind_Ok in Hb as (slv & Hslv & [= <-]).
    assert (mip_capable g x = MIP_CAPABLE slv) as Hm.
    { unfold mip_capable, getitem in *.
      destruct (SLV_MAP g !! x); [by injection Hslv as -> | done]. }
    rewrite filter_cons, <- (IH r' Hr').
    case_decide as Hd; rewrite Hm in Hd; destruct (MIP_CAPABLE slv); congruence.
Qed.

Lemma filter_mip_Ok g problem candidates narrowed :
  filter_mip g problem candidates = Ok narrowed →
  if is_mip problem
  then narrowed = filter (λ s, mip_capable g s = true) candidates ∧ narrowed ≠ []
  else narrowed = candidates.
Proof.
  unfold filter_mip. destruct (is_mip problem); [|by intros [= <-]].
  intros H. apply bind_Ok in H as (r & Hr & H).
  destruct r as [|x r]; [done|]. injection H as <-.
  split; [by apply py_filter_mip | done].
Qed.

Lemma conic_loop_nil_cones g reductions ccs solver todo :
  conic_loop g [] reductions ccs (solver :: todo) =
    slv ← getitem (SLV_MAP g) solver;
    Ok (reductions ++ [Dcp2Cone; ConeMatrixStuffing; ConicSolver slv]).
Proof. reflexivity. Qed.

Lemma conic_loop_cons_cones g c cones reductions ccs solver todo :
  conic_loop g (c :: cones) reductions ccs (solver :: todo) = Raise (NameError "s").
Proof. reflexivity. Qed.

Lemma conic_loop_Ok g cones reductions ccs todo steps :
  conic_loop g cones reductions ccs todo = Ok steps →
  cones = [] ∧ ∃ solver slv, head todo = Some solver ∧
    SLV_MAP g !! solver = Some slv ∧
    steps = reductions ++ [Dcp2Cone; ConeMatrixStuffing; ConicSolver slv].
Proof.
  destruct todo as [|solver todo].
  - simpl. by destruct cones.
  - destruct cones as [|c cones]; [|by rewrite conic_loop_cons_cones].
    rewrite conic_loop_nil_cones. intros H.
    apply bind_Ok in H as (slv & Hslv & [= <-]). split; [done|].
    exists solver, slv. unfold getitem in Hslv.
    destruct (SLV_MAP g !! solver); [|done]. by injection Hslv as ->.
Qed.

(** A successful choice went down the conic path, for a problem that needs
    no cone, and took the first conic solver among the candidates. *)
Lemma choose_pipeline_Ok g problem candidates steps :
  choose_pipeline g problem candidates = Ok steps →
  required_cones g (atoms problem) = [] ∧
  ∃ solver slv,
    head (filter (λ s, s ∈ candidates) (CONIC_SOLVERS g)) = Some solver ∧
    SLV_MAP g !! solver = Some slv ∧
    steps = initial_reductions problem ++ [Dcp2Cone; ConeMatrixStuffing; ConicSolver slv].
Proof.
  unfold choose_pipeline.
  destruct (bool_decide _ && is_qp problem).
  { intros H. apply bind_Ok in H as (l & _ & H). done. }
  destruct (filter (λ s, s ∈ candidates) (CONIC_SOLVERS g)) as [|s0 rest] eqn:Hf; [done|].
  intros H. apply bind_Ok in H as (todo & Htodo & H).
  apply conic_loop_Ok in H as (Hcones & solver & slv & Hhd & Hslv & ->).
  split; [done|]. exists solver, slv. split; [|done].
  rewrite <- Hf in Htodo. apply sorted_by_index_head in Htodo.
  rewrite Hf in Htodo. by rewrite <- Htodo.
Qed.

Lemma planned_reductions_Ok g problem solver steps :
  planned_reductions g problem solver = Ok steps →
  is_dcp problem = true ∧
  ∃ candidates narrowed,
    resolve_candidates g solver = Ok candidates ∧
    filter_mip g problem candidates = Ok narrowed ∧
    choose_pipeline g problem narrowed = Ok steps.
Proof.
  unfold planned_reductions. intros H.
  apply bind_Ok in H as (candidates & Hc & H).
  destruct (is_dcp problem); [|done]. simpl in H.
  apply bind_Ok in H as (narrowed & Hn & H). eauto 6.
Qed.

(** Every successful plan is the orientation prefix followed by the conic
    pipeline, on a solver taken among the candidates left after the
    mixed-integer filter. *)
Lemma planned_reductions_shape g problem solver steps :
  planned_reductions g problem solver = Ok steps →
  ∃ narrowed s slv,
    (if is_mip problem then Forall (λ s, mip_capable g s = true) narrowed else True) ∧
    s ∈ narrowed ∧ SLV_MAP g !! s = Some slv ∧
    steps = initial_reductions problem ++ [Dcp2Cone; ConeMatrixStuffing; ConicSolver slv].
Proof.
  intros H. apply planned_reductions_Ok in H as (_ & candidates & narrowed & _ & Hn & H).
  apply choose_pipeline_Ok in H as (_ & s & slv & Hhd & Hslv & ->).
  exists narrowed, s, slv. split; [|split; [|done]].
  - apply filter_mip_Ok in Hn. destruct (is_mip problem); [|done].
    destruct Hn as [-> _]. apply Forall_forall. intros x Hx.
    by apply list_elem_of_filter in Hx as [? _].
  - apply head_Some_elem_of in Hhd. by apply list_elem_of_filter in Hhd as [? _].
Qed.

Lemma flip_in_initial_reductions problem :
  FlipObjective ∈ initial_reductions problem ↔ objective problem = Maximize.
Proof.
  unfold initial_reductions. case_decide as Hd.
  - split; [done | intros _; apply elem_of_cons; by left].
  - split; [by intros ?%elem_of_nil | done].
Qed.

Lemma flip_in_plan problem slv :
  FlipObjective ∈ initial_reductions problem ++ [Dcp2Cone; ConeMatrixStuffing; ConicSolver slv]
  ↔ objective problem = Maximize.
Proof.
  rewrite elem_of_app, flip_in_initial_reductions. split; [|by left].
  intros [?|Hin]; [done|].
  repeat (apply elem_of_cons in Hin as [?|Hin]; [discriminate|]).
  by apply elem_of_nil in Hin.
Qed.

(** ** The claims *)

(** C3, as amended.  A problem that is not DCP makes the planner raise
    [DCPError] whenever no solver is requested or the requested solver is
    installed, whatever the installed solvers are. *)
Theorem not_dcp_raises_DCPError g problem solver :
  is_dcp problem = false →
  (∀ s, solver = Some s → s ∈ INSTALLED_SOLVERS g) →
  construct_solving_chain g problem solver =
    Raise (DCPError "Problem does not follow DCP rules.").
Proof.
  intros Hdcp Hinst. unfold construct_solving_chain, planned_reductions.
  assert (∃ c, resolve_candidates g solver = Ok c) as [c ->].
  { destruct solver as [s|]; simpl; [|eauto].
    rewrite bool_decide_eq_true_2 by auto. eauto. }
  simpl. by rewrite Hdcp.
Qed.

Lemma not_dcp_raises_DCPError_witness :
  construct_solving_chain Examples.registry Examples.nonconvex (Some "ECOS") =
    Raise (DCPError "Problem does not follow DCP rules.").
Proof.
  apply not_dcp_raises_DCPError; [reflexivity|].
  intros s [= <-]. by_evaluation.
Defined.

(** C3, as stated, fails: for a problem that is not DCP and a requested
    solver that is not installed the planner raises [SolverError], not
    [DCPError]. *)
Lemma not_dcp_unavailable_solver_counterexample :
  is_dcp Examples.nonconvex = false ∧
  construct_solving_chain Examples.registry Examples.nonconvex (Some "X") =
    Raise (SolverError "Solver %s is not installed" [ArgStr "X"]) ∧
  construct_solving_chain Examples.registry Examples.nonconvex (Some "X") ≠
    Raise (DCPError "Problem does not follow DCP rules.").
Proof. by vm_compute. Qed.

(** C4.  A requested solver that is not among the installed ones makes the
    planner raise [SolverError] on "Solver %s is not installed" with that
    name, for every problem: nothing about the problem is looked at, not
    even whether it is DCP. *)
Theorem unavailable_solver_raised_first g problem s :
  s ∉ INSTALLED_SOLVERS g →
  construct_solving_chain g problem (Some s) =
    Raise (SolverError "Solver %s is not installed" [ArgStr s]).
Proof.
  intros Hs. unfold construct_solving_chain, planned_reductions. simpl.
  by rewrite bool_decide_eq_false_2.
Qed.

Lemma unavailable_solver_raised_first_witness :
  is_dcp Examples.nonconvex = false ∧
  construct_solving_chain Examples.registry Examples.nonconvex (Some "X") =
    Raise (SolverError "Solver %s is not installed" [ArgStr "X"]).
Proof.
  split; [reflexivity|]. apply unavailable_solver_raised_first.
  by_evaluation.
Defined.

Lemma py_filter_mip_total g (l : list string) :
  Forall (λ s, is_Some (SLV_MAP g !! s)) l →
  py_filter (λ s, slv ← getitem (SLV_MAP g) s; Ok (MIP_CAPABLE slv)) l =
    Ok (filter (λ s, mip_capable g s = true) l).
Proof.
  induction 1 as [|x l [slv Hx] _ IH]; [done|].
  assert (mip_capable g x = MIP_CAPABLE slv) as Hm
    by (unfold mip_capable; by rewrite Hx).
  assert (getitem (SLV_MAP g) x = Ok slv) as Hget
    by (unfold getitem; by rewrite Hx).
  rewrite filter_cons. simpl. rewrite Hget. simpl. rewrite IH. simpl.
  case_decide as Hd; rewrite Hm in Hd; destruct (MIP_CAPABLE slv); congruence.
Qed.

(** C5, as amended.  For a mixed-integer problem that is DCP and whose
    candidates all have their entry in [SLV_MAP], the candidates are
    narrowed to the solvers whose [MIP_CAPABLE] is true before a pipeline
    is chosen; when none is left the planner raises [SolverError] on the
    narrowed, hence empty, list.  Every step list completed for a
    mixed-integer problem is the one the planner hands to [SolvingChain],
    and ends with a solver whose [MIP_CAPABLE] is true. *)
Theorem mip_candidates_narrowed g problem solver :
  is_mip problem = true →
  (∀ candidates,
      is_dcp problem = true →
      resolve_candidates g solver = Ok candidates →
      Forall (λ s, is_Some (SLV_MAP g !! s)) candidates →
      construct_solving_chain g problem solver =
        match filter (λ s, mip_capable g s = true) candidates with
        | [] => Raise (SolverError
                  "Problem is mixed integer, but candidate solvers (%s) are not MIP-capable."
                  [ArgList []])
        | narrowed =>
            steps ← choose_pipeline g problem narrowed;
            SolvingChain.init (Chain_reductions g) steps
        end) ∧
  (∀ steps,
      planned_reductions g problem solver = Ok steps →
      construct_solving_chain g problem solver =
        SolvingChain.init (Chain_reductions g) steps ∧
      ∃ slv, last steps = Some (ConicSolver slv) ∧ MIP_CAPABLE slv = true).
Proof.
  intros Hmip. split.
  - intros candidates Hdcp Hres Hmap.
    unfold construct_solving_chain, planned_reductions.
    rewrite Hres. simpl. rewrite Hdcp. simpl.
    unfold filter_mip. rewrite Hmip, (py_filter_mip_total g candidates Hmap). simpl.
    by destruct (filter _ candidates).
  - intros steps Hsteps. split.
    { unfold construct_solving_chain. by rewrite Hsteps. }
    apply planned_reductions_shape in Hsteps as (narrowed & s & slv & Hn & Hs & Hslv & ->).
    rewrite Hmip in Hn. exists slv. split.
    + by rewrite (assoc_L (++) _ [Dcp2Cone; ConeMatrixStuffing] [ConicSolver slv]), last_snoc.
    + rewrite Forall_forall in Hn. specialize (Hn s Hs).
      unfold mip_capable in Hn. by rewrite Hslv in Hn.
Qed.

Lemma mip_candidates_narrowed_witness :
  construct_solving_chain Examples.registry Examples.milp None =
    (steps ← choose_pipeline Examples.registry Examples.milp ["ECOS_BB"];
     SolvingChain.init (Chain_reductions Examples.registry) steps) ∧
  construct_solving_chain Examples.registry Examples.milp None =
    SolvingChain.init (Chain_reductions Examples.registry)
      [Dcp2Cone; ConeMatrixStuffing; ConicSolver Examples.ECOS_BB] ∧
  ∃ slv, last [Dcp2Cone; ConeMatrixStuffing; ConicSolver Examples.ECOS_BB] =
           Some (ConicSolver slv) ∧ MIP_CAPABLE slv = true.
Proof.
  destruct (mip_candidates_narrowed Examples.registry Examples.milp None eq_refl)
    as [Hnarrow Hlast].
  split.
  - apply (Hnarrow (INSTALLED_SOLVERS Examples.registry) eq_refl eq_refl).
    by_evaluation.
  - apply Hlast. vm_compute. reflexivity.
Defined.

(** C5, as stated, fails.  A mixed-integer problem that is not DCP, with no
    MIP-capable candidate, gets [DCPError] and not the [SolverError] of
    lines 55-57, and with a requested solver that is not installed the
    [SolverError] of line 41; a candidate without entry in [SLV_MAP] makes the filter
    raise [KeyError] although a MIP-capable conic solver is installed; and
    when [Chain] has a class-level [reductions] the chain returned for a
    mixed-integer problem is made of it, here with a solver that is not
    MIP-capable. *)
Lemma mip_claim_counterexample :
  (is_mip Variations.nonconvex_mip = true ∧
   filter (λ s, mip_capable Examples.registry s = true) ["ECOS"] = [] ∧
   construct_solving_chain Examples.registry Variations.nonconvex_mip (Some "ECOS") =
     Raise (DCPError "Problem does not follow DCP rules.") ∧
   construct_solving_chain Examples.registry Examples.milp (Some "X") =
     Raise (SolverError "Solver %s is not installed" [ArgStr "X"])) ∧
  (is_mip Examples.milp = true ∧
   mip_capable Variations.registry_missing "ECOS_BB" = true ∧
   construct_solving_chain Variations.registry_missing Examples.milp None =
     Raise (KeyError "CVXOPT")) ∧
  (construct_solving_chain Variations.registry_class_attribute Examples.milp None =
     Ok {| SolvingChain.problem_reductions := [];
           SolvingChain.solver := ConicSolver Examples.SCS |} ∧
   MIP_CAPABLE Examples.SCS = false).
Proof. by vm_compute. Qed.




Lemma elem_of_cone_flag (P : string → Prop) `{∀ x, Decision (P x)}
    (atoms : list string) (k c : constraint_class) :
  c ∈ (if bool_decide (Exists P atoms) then [k] else []) ↔
  c = k ∧ ∃ atom, atom ∈ atoms ∧ P atom.
Proof.
  rewrite <- Exists_exists. case_bool_decide as Hex.
  - rewrite list_elem_of_singleton. tauto.
  - rewrite elem_of_nil. tauto.
Qed.

(** C9.  The cones computed from the atoms of the problem: [SOC] is among
    them exactly when some atom has its class in [SOC_ATOMS], [ExpCone]
    exactly when some atom has its class in [EXP_ATOMS], [PSD] exactly when
    some atom has its class in [PSD_ATOMS]; no other constraint class is
    ever among them, and none is listed twice. *)
Theorem required_cones_spec g atoms c :
  (c ∈ required_cones g atoms ↔
     (c = SOC ∧ ∃ atom, atom ∈ atoms ∧ atom ∈ SOC_ATOMS g) ∨
     (c = ExpCone ∧ ∃ atom, atom ∈ atoms ∧ atom ∈ EXP_ATOMS g) ∨
     (c = PSD ∧ ∃ atom, atom ∈ atoms ∧ atom ∈ PSD_ATOMS g)) ∧
  NoDup (required_cones g atoms).
Proof.
  unfold required_cones. split.
  - by rewrite !elem_of_app, !elem_of_cone_flag.
  - do 3 destruct (bool_decide _); by apply (bool_decide_unpack _).
Qed.

(** C10.  The step list the planner hands to [SolvingChain] holds a
    [FlipObjective] exactly when the class of the objective is [Maximize]
    itself; for a class derived from [Maximize], which [isinstance] would
    accept as a maximization, there is none. *)
Theorem flip_only_for_exactly_Maximize g problem solver steps :
  planned_reductions g problem solver = Ok steps →
  (FlipObjective ∈ steps ↔ objective problem = Maximize) ∧
  (∀ name base, objective problem = Subclass name base → FlipObjective ∉ steps).
Proof.
  intros H. apply planned_reductions_shape in H as (_ & _ & slv & _ & _ & _ & ->).
  split; [apply flip_in_plan|].
  intros name base Hobj. rewrite flip_in_plan, Hobj. discriminate.
Qed.

Lemma flip_only_for_exactly_Maximize_witness :
  issubclass_Maximize (objective Examples.lp_submax) = true ∧
  FlipObjective ∉ [Dcp2Cone; ConeMatrixStuffing; ConicSolver Examples.ECOS_BB].
Proof.
  split; [reflexivity|].
  refine (proj2 (flip_only_for_exactly_Maximize
                   Examples.registry Examples.lp_submax None _ _)
                "WeightedMaximize" Maximize eq_refl).
  vm_compute. reflexivity.
Defined.

(** ** The quadratic pipeline *)

(** Whenever the problem is recognised as a QP and some candidate is a QP
    solver, line 69 takes the attribute [name] of the sorted list. *)
Theorem qp_pipeline_always_raises g problem candidates s :
  is_qp problem = true → s ∈ QP_SOLVERS g → s ∈ candidates →
  choose_pipeline g problem candidates = Raise (AttributeError "list" "name").
Proof.
  intros Hqp Hs Hc. unfold choose_pipeline.
  assert (s ∈ filter (λ s, s ∈ candidates) (QP_SOLVERS g)) as Hin
    by (by apply list_elem_of_filter).
  rewrite bool_decide_eq_true_2, Hqp by (by intros Heq; rewrite Heq in Hin; apply elem_of_nil in Hin).
  simpl.
  destruct (sorted_by_index_filter_Ok (λ s, s ∈ candidates) (QP_SOLVERS g)) as [l' ->].
  reflexivity.
Qed.

Lemma qp_pipeline_always_raises_witness :
  choose_pipeline Examples.registry Examples.lp (INSTALLED_SOLVERS Examples.registry) =
    Raise (AttributeError "list" "name").
Proof.
  apply (qp_pipeline_always_raises _ _ _ "OSQP");
    [reflexivity | by_evaluation ..].
Defined.

(** C1, on a linear program, with OSQP installed: the planner raises
    [AttributeError] where the claim has it return the chain
    [Qp2SymbolicQp, QpMatrixStuffing, QpSolver "OSQP"]. *)
Theorem qp_problem_with_qp_solver_raises :
  is_dcp Examples.lp = true ∧ is_qp Examples.lp = true ∧
  "OSQP" ∈ QP_SOLVERS Examples.registry ∧ "OSQP" ∈ INSTALLED_SOLVERS Examples.registry ∧
  construct_solving_chain Examples.registry Examples.lp None =
    Raise (AttributeError "list" "name").
Proof.
  repeat split; try reflexivity; by_evaluation.
Qed.

(** ** The conic pipeline *)

(** C2, on the example of the specification: a second-order cone
    constraint, [SolverA] supporting the cone and ranked before [SolverB],
    which supports none.  The claim has the planner return a chain ending
    with [SolverA]; it raises [NameError] on the first round of the loop. *)
Theorem conic_selection_raises :
  required_cones Examples.registry_AB (atoms Examples.socp) = [SOC] ∧
  filter (λ s, s ∈ INSTALLED_SOLVERS Examples.registry_AB)
         (CONIC_SOLVERS Examples.registry_AB) = ["SolverA"; "SolverB"] ∧
  construct_solving_chain Examples.registry_AB Examples.socp None =
    Raise (NameError "s").
Proof. by vm_compute. Qed.

(** ** The class SolvingChain *)

(** C7.  The constructor never looks at the step list it is given: its
    outcome is the same for every argument.  With no class-level
    [reductions] in [Chain] it raises [AttributeError] on every list, the
    empty one and those that do not end with a solver included, where the
    claim has [ValueError]; and an empty [self.reductions] makes line 106
    raise [IndexError], not [ValueError]. *)
Theorem init_never_reads_its_argument :
  (∀ self_reductions l l',
      SolvingChain.init self_reductions l = SolvingChain.init self_reductions l') ∧
  (∀ l, SolvingChain.init None l = Raise (AttributeError "SolvingChain" "reductions")) ∧
  (∀ l, SolvingChain.init (Some []) l = Raise (IndexError "list index out of range")).
Proof. by repeat split. Qed.

(** What a chain that was constructed is made of: [self.reductions] was a
    non-empty list ending with a solver, split into its front and its last
    element. *)
Theorem init_Ok self_reductions l chain :
  SolvingChain.init self_reductions l = Ok chain →
  self_reductions =
    Some (SolvingChain.problem_reductions chain ++ [SolvingChain.solver chain]) ∧
  isinstance_Solver (SolvingChain.solver chain) = true.
Proof.
  unfold SolvingChain.init. destruct self_reductions as [rs|]; [|done].
  destruct (last rs) as [r|] eqn:Hlast; [|done].
  destruct (isinstance_Solver r) eqn:Hr; [|done]. simpl. intros [= <-]. simpl.
  split; [|done]. f_equal.
  destruct rs as [|r0 rs _] using rev_ind; [done|].
  rewrite last_snoc in Hlast. injection Hlast as ->. by rewrite removelast_last.
Qed.

Lemma init_Ok_witness :
  Some [Dcp2Cone; ConeMatrixStuffing; ConicSolver Examples.ECOS] =
    Some (SolvingChain.problem_reductions Examples.toy_chain ++
          [SolvingChain.solver Examples.toy_chain]) ∧
  isinstance_Solver (SolvingChain.solver Examples.toy_chain) = true.
Proof.
  apply (init_Ok (Some [Dcp2Cone; ConeMatrixStuffing; ConicSolver Examples.ECOS]) []).
  reflexivity.
Defined.

(** The effect on the planner: when [Chain] declares no class-level
    [reductions], every call of [construct_solving_chain] raises, the
    calls that reach [SolvingChain(reductions=reductions)] with a complete
    step list included. *)
Theorem construct_solving_chain_always_raises g problem solver :
  Chain_reductions g = None →
  ∃ e, construct_solving_chain g problem solver = Raise e ∧
       (∀ steps, planned_reductions g problem solver = Ok steps →
                 e = AttributeError "SolvingChain" "reductions").
Proof.
  intros Hnone. unfold construct_solving_chain.
  destruct (planned_reductions g problem solver) as [steps|e]; simpl.
  - rewrite Hnone. simpl. eauto.
  - exists e. split; [done | discriminate].
Qed.

Lemma construct_solving_chain_always_raises_witness :
  ∃ e, construct_solving_chain Examples.registry Examples.lp_max None = Raise e ∧
       (∀ steps, planned_reductions Examples.registry Examples.lp_max None = Ok steps →
                 e = AttributeError "SolvingChain" "reductions").
Proof.
  apply construct_solving_chain_always_raises. reflexivity.
Defined.

(** C8.  [chain.solve(problem, warm_start, verbose, solver_opts)] passes
    five positional arguments to a function of four parameters and raises
    [TypeError]; called on four arguments, the function reads the unbound
    name [self] and raises [NameError].  Neither runs [apply], the solver or
    [invert], whatever those do. *)
Theorem solve_always_raises {Data InverseData RawSolution Solution Options : Type}
    (Chain_apply : SolvingChain.value Options → SolvingChain.value Options →
                   result (Data * InverseData))
    (Chain_invert : SolvingChain.value Options → RawSolution → InverseData →
                    result Solution)
    (getattr_solver : SolvingChain.value Options → result reduction)
    (solve_via_data : reduction → Data → SolvingChain.value Options →
                      SolvingChain.value Options → SolvingChain.value Options →
                      result RawSolution) :
  (∀ chain problem warm_start verbose solver_opts,
      SolvingChain.call_solve Chain_apply Chain_invert getattr_solver solve_via_data
        chain [problem; warm_start; verbose; solver_opts] =
      Raise (TypeError_arity "solve" 4 5)) ∧
  (∀ problem warm_start verbose solver_opts,
      SolvingChain.solve Chain_apply Chain_invert getattr_solver solve_via_data
        [problem; warm_start; verbose; solver_opts] =
      Raise (NameError "self")).
Proof. by split. Qed.

(** The same call on collaborators that all succeed: the composition the
    specification describes returns a solution, the method raises. *)
Lemma solve_differs_from_solve_spec :
  SolvingChain.solve_spec Examples.toy_apply Examples.toy_invert
    Examples.toy_solve_via_data Examples.toy_chain Examples.lp true false () = Ok 12 ∧
  SolvingChain.call_solve Examples.toy_apply Examples.toy_invert
    Examples.toy_getattr_solver Examples.toy_solve_via_data Examples.toy_chain
    [SolvingChain.VProblem Examples.lp; SolvingChain.VBool true;
     SolvingChain.VBool false; SolvingChain.VOptions ()] =
  Raise (TypeError_arity "solve" 4 5).
Proof. by split. Qed.

(** ** The errors of the conic fallback *)

(** With no QP pipeline and no conic solver among the candidates, the
    planner reports the candidates. *)
Theorem no_conic_candidate_raises g problem candidates :
  is_qp problem = false →
  filter (λ s, s ∈ candidates) (CONIC_SOLVERS g) = [] →
  choose_pipeline g problem candidates =
    Raise (SolverError
      "Problem could not be reduced to a QP, and no conic solvers exist among candidate solvers (%s)."
      [ArgList candidates]).
Proof.
  intros Hqp Hf. unfold choose_pipeline. by rewrite Hqp, andb_false_r, Hf.
Qed.

Lemma no_conic_candidate_raises_witness :
  choose_pipeline Examples.registry Examples.lp_min ["OSQP"] =
    Raise (SolverError
      "Problem could not be reduced to a QP, and no conic solvers exist among candidate solvers (%s)."
      [ArgList ["OSQP"]]).
Proof. apply no_conic_candidate_raises; vm_compute; reflexivity. Defined.

(** The error of lines 96-98 is never raised: the loop runs over a list
    that is not empty, and its first round returns or raises.  The only
    [SolverError] of the choice of a pipeline is the one of lines 74-76. *)
Theorem unsupported_cones_never_raised g problem candidates template args :
  choose_pipeline g problem candidates = Raise (SolverError template args) →
  template =
    "Problem could not be reduced to a QP, and no conic solvers exist among candidate solvers (%s)."
  ∧ args = [ArgList candidates].
Proof.
  unfold choose_pipeline. destruct (bool_decide _ && is_qp problem).
  { destruct (sorted_by_index_filter_Ok (λ s, s ∈ candidates) (QP_SOLVERS g)) as [l' ->].
    discriminate. }
  destruct (sorted_by_index_filter_Ok (λ s, s ∈ candidates) (CONIC_SOLVERS g))
    as [todo Htodo].
  pose proof (sorted_by_index_perm _ _ _ Htodo) as Hperm.
  destruct (filter (λ s, s ∈ candidates) (CONIC_SOLVERS g)) as [|s0 rest] eqn:Hf.
  { by intros [= <- <-]. }
  rewrite Htodo. simpl.
  destruct todo as [|solver todo]; [by apply Permutation_nil_cons in Hperm|].
  destruct (required_cones g (atoms problem)) as [|c cones];
    [|by rewrite conic_loop_cons_cones].
  rewrite conic_loop_nil_cones. unfold getitem.
  by destruct (SLV_MAP g !! solver).
Qed.

Lemma unsupported_cones_never_raised_witness :
  "Problem could not be reduced to a QP, and no conic solvers exist among candidate solvers (%s)."
  = "Problem could not be reduced to a QP, and no conic solvers exist among candidate solvers (%s)."
  ∧ [ArgList ["OSQP"]] = [ArgList ["OSQP"]].
Proof.
  apply (unsupported_cones_never_raised Examples.registry Examples.lp_min ["OSQP"]).
  vm_compute. reflexivity.
Defined.

(** * Further properties of the planner *)

(** ** The calls of [sorted] change nothing *)

Lemma py_index_cons_ne x z ref :
  x ≠ z → py_index x (z :: ref) = S <$> py_index x ref.
Proof. intros Hne. simpl. by rewrite decide_False. Qed.

Lemma with_keys_cons_ref z ref l :
  z ∉ l → with_keys (z :: ref) l = shift_keys <$> with_keys ref l.
Proof.
  induction l as [|x l IH]; intros Hz; [done|].
  apply not_elem_of_cons in Hz as [Hne Hz].
  cbn [with_keys]. rewrite py_index_cons_ne, (IH Hz) by done.
  destruct (py_index x ref) as [k|e]; [|done]. simpl.
  by destruct (with_keys ref l).
Qed.

Lemma insert_by_key_shift x l :
  insert_by_key (S x.1, x.2) (shift_keys l) = shift_keys (insert_by_key x l).
Proof.
  unfold shift_keys. induction l as [|y l IH]; [done|].
  rewrite fmap_cons. cbn [insert_by_key].
  destruct (decide (x.1 ≤ y.1)) as [Hle|Hle].
  - case_decide as Hle'; simpl in Hle'; [|lia]. by rewrite !fmap_cons.
  - case_decide as Hle'; simpl in Hle'; [lia|]. by rewrite IH, fmap_cons.
Qed.

Lemma stable_sort_shift l : stable_sort (shift_keys l) = shift_keys (stable_sort l).
Proof.
  induction l as [|x l IH]; [done|].
  change (stable_sort (shift_keys (x :: l)))
    with (insert_by_key (S x.1, x.2) (stable_sort (shift_keys l))).
  rewrite IH. apply insert_by_key_shift.
Qed.

Lemma insert_by_key_zero s l : insert_by_key (0, s) l = (0, s) :: l.
Proof.
  destruct l as [|y l]; [done|]. cbn [insert_by_key].
  case_decide as Hle; [done | simpl in Hle; lia].
Qed.

Lemma sublist_not_elem_of (x : string) l1 l2 :
  l1 `sublist_of` l2 → x ∉ l2 → x ∉ l1.
Proof. intros Hsub Hx Hin. apply Hx. by eapply sublist_subseteq. Qed.

Lemma with_keys_sublist ref l :
  NoDup ref → l `sublist_of` ref →
  ∃ ks, with_keys ref l = Ok ks ∧ stable_sort ks = ks.
Proof.
  intros Hnd Hsub. induction Hsub as [|x l1 l2 Hsub IH|x l1 l2 Hsub IH].
  - by exists [].
  - apply NoDup_cons in Hnd as [Hx Hnd]. destruct (IH Hnd) as (ks & Hks & Hsorted).
    exists ((0, x) :: shift_keys ks). split.
    + cbn [with_keys py_index]. rewrite decide_True by done. simpl.
      rewrite with_keys_cons_ref by (by eapply sublist_not_elem_of).
      by rewrite Hks.
    + change (stable_sort ((0, x) :: shift_keys ks))
        with (insert_by_key (0, x) (stable_sort (shift_keys ks))).
      rewrite stable_sort_shift, Hsorted. apply insert_by_key_zero.
  - apply NoDup_cons in Hnd as [Hx Hnd]. destruct (IH Hnd) as (ks & Hks & Hsorted).
    exists (shift_keys ks). split.
    + rewrite with_keys_cons_ref by (by eapply sublist_not_elem_of). by rewrite Hks.
    + by rewrite stable_sort_shift, Hsorted.
Qed.

(** When the reference list names no solver twice, sorting the candidates
    taken from it on their position in it returns them as they are: the
    comprehensions of lines 64 and 72 already list them in that order. *)
Theorem sorted_candidates_unchanged (ref candidates : list string) :
  NoDup ref →
  sorted_by_index ref (filter (λ s, s ∈ candidates) ref) =
    Ok (filter (λ s, s ∈ candidates) ref).
Proof.
  intros Hnd.
  destruct (with_keys_sublist ref (filter (λ s, s ∈ candidates) ref) Hnd)
    as (ks & Hks & Hsorted); [apply sublist_filter|].
  unfold sorted_by_index. rewrite Hks. simpl.
  by rewrite Hsorted, (with_keys_snd _ _ _ Hks).
Qed.

Lemma sorted_candidates_unchanged_witness :
  sorted_by_index (CONIC_SOLVERS Examples.registry)
    (filter (λ s, s ∈ ["SCS"; "ECOS"]) (CONIC_SOLVERS Examples.registry)) =
  Ok (filter (λ s, s ∈ ["SCS"; "ECOS"]) (CONIC_SOLVERS Examples.registry)).
Proof. apply sorted_candidates_unchanged. by_evaluation. Defined.

(** With a solver named twice the order does change: the second
    occurrence moves next to the first. *)
Lemma sorted_candidates_duplicate :
  sorted_by_index Variations.conic_with_duplicate
    (filter (λ s, s ∈ ["ECOS"; "SCS"]) Variations.conic_with_duplicate) =
  Ok ["ECOS"; "ECOS"; "SCS"].
Proof. reflexivity. Qed.

(** ** When the planner completes a step list, and how it fails otherwise *)

Lemma qp_guard_false g problem (candidates : list string) :
  bool_decide (filter (λ s, s ∈ candidates) (QP_SOLVERS g) ≠ []) && is_qp problem = false ↔
  is_qp problem = false ∨ filter (λ s, s ∈ candidates) (QP_SOLVERS g) = [].
Proof.
  rewrite andb_false_iff, bool_decide_eq_false.
  destruct (filter (λ s, s ∈ candidates) (QP_SOLVERS g)) as [|s0 rest].
  - split; intros _; [by right | left; intros H; by apply H].
  - split.
    + intros [H|H]; [exfalso; by apply H | by left].
    + intros [H|H]; [by right | done].
Qed.

Lemma choose_pipeline_qp_branch g problem candidates :
  bool_decide (filter (λ s, s ∈ candidates) (QP_SOLVERS g) ≠ []) && is_qp problem = true →
  choose_pipeline g problem candidates = Raise (AttributeError "list" "name").
Proof.
  intros Hguard. unfold choose_pipeline. cbv zeta. rewrite Hguard.
  by destruct (sorted_by_index_filter_Ok (λ s, s ∈ candidates) (QP_SOLVERS g)) as [l' ->].
Qed.

Lemma choose_pipeline_conic_branch g problem candidates s :
  bool_decide (filter (λ s, s ∈ candidates) (QP_SOLVERS g) ≠ []) && is_qp problem = false →
  head (filter (λ s, s ∈ candidates) (CONIC_SOLVERS g)) = Some s →
  required_cones g (atoms problem) = [] →
  choose_pipeline g problem candidates =
    slv ← getitem (SLV_MAP g) s;
    Ok (initial_reductions problem ++ [Dcp2Cone; ConeMatrixStuffing; ConicSolver slv]).
Proof.
  intros Hguard Hhd Hcones. unfold choose_pipeline. cbv zeta. rewrite Hguard.
  destruct (sorted_by_index_filter_Ok (λ s, s ∈ candidates) (CONIC_SOLVERS g))
    as [todo Htodo].
  pose proof (sorted_by_index_head _ _ _ Htodo) as Hhd'. rewrite Hhd in Hhd'.
  destruct (filter (λ s, s ∈ candidates) (CONIC_SOLVERS g)) as [|s0 rest]; [done|].
  rewrite Htodo. simpl. destruct todo as [|solver todo]; [done|].
  injection Hhd' as ->. by rewrite Hcones, conic_loop_nil_cones.
Qed.

(** On the conic path, that is when the problem is not recognised as a QP
    or no candidate is a QP solver: as soon as the problem needs a cone, the
    test of line 93 reads the unbound name [s]. *)
Theorem cone_test_always_raises g problem candidates s :
  is_qp problem = false ∨ filter (λ x, x ∈ candidates) (QP_SOLVERS g) = [] →
  s ∈ CONIC_SOLVERS g → s ∈ candidates →
  required_cones g (atoms problem) ≠ [] →
  choose_pipeline g problem candidates = Raise (NameError "s").
Proof.
  intros Hguard Hs Hc Hcones.
  apply (proj2 (qp_guard_false g problem candidates)) in Hguard.
  unfold choose_pipeline. cbv zeta. rewrite Hguard.
  assert (s ∈ filter (λ s, s ∈ candidates) (CONIC_SOLVERS g)) as Hin
    by (by apply list_elem_of_filter).
  destruct (sorted_by_index_filter_Ok (λ s, s ∈ candidates) (CONIC_SOLVERS g))
    as [todo Htodo].
  pose proof (sorted_by_index_perm _ _ _ Htodo) as Hperm.
  destruct (filter (λ s, s ∈ candidates) (CONIC_SOLVERS g)) as [|s0 rest] eqn:Hf;
    [by apply elem_of_nil in Hin|].
  rewrite Htodo. simpl.
  destruct todo as [|solver todo]; [by apply Permutation_nil_cons in Hperm|].
  destruct (required_cones g (atoms problem)) as [|c cones]; [done|].
  apply conic_loop_cons_cones.
Qed.

Lemma cone_test_always_raises_witness :
  choose_pipeline Examples.registry_AB Examples.socp ["SolverA"; "SolverB"] =
    Raise (NameError "s") ∧
  (is_qp Variations.qp_soc = true ∧
   choose_pipeline Examples.registry_AB Variations.qp_soc ["SolverA"; "SolverB"] =
     Raise (NameError "s")).
Proof.
  split; [|split; [reflexivity|]].
  - apply (cone_test_always_raises _ _ _ "SolverA");
      [by left | by_evaluation | by_evaluation | by vm_compute].
  - apply (cone_test_always_raises _ _ _ "SolverA");
      [by right | by_evaluation | by_evaluation | by vm_compute].
Defined.

(** On the conic path, that is when the problem is not recognised as a QP
    or no candidate is a QP solver: when the problem needs no cone, the
    first conic solver among the candidates, in the order of
    [CONIC_SOLVERS], ends the step list, whatever it supports. *)
Theorem no_cone_first_conic_candidate g problem candidates s rest slv :
  is_qp problem = false ∨ filter (λ x, x ∈ candidates) (QP_SOLVERS g) = [] →
  filter (λ s, s ∈ candidates) (CONIC_SOLVERS g) = s :: rest →
  required_cones g (atoms problem) = [] →
  SLV_MAP g !! s = Some slv →
  choose_pipeline g problem candidates =
    Ok (initial_reductions problem ++ [Dcp2Cone; ConeMatrixStuffing; ConicSolver slv]).
Proof.
  intros Hguard Hf Hcones Hslv.
  apply (proj2 (qp_guard_false g problem candidates)) in Hguard.
  rewrite (choose_pipeline_conic_branch g problem candidates s Hguard);
    [|by rewrite Hf|done].
  unfold getitem. by rewrite Hslv.
Qed.

Lemma no_cone_first_conic_candidate_witness :
  SUPPORTED_CONSTRAINTS Examples.SolverB = [] ∧
  choose_pipeline Examples.registry_BA Examples.lp_max ["SolverA"; "SolverB"] =
    Ok (initial_reductions Examples.lp_max ++
        [Dcp2Cone; ConeMatrixStuffing; ConicSolver Examples.SolverB]) ∧
  (is_qp Examples.lp = true ∧
   choose_pipeline Examples.registry_BA Examples.lp ["SolverA"; "SolverB"] =
     Ok (initial_reductions Examples.lp ++
         [Dcp2Cone; ConeMatrixStuffing; ConicSolver Examples.SolverB])).
Proof.
  split; [reflexivity|]. split; [|split; [reflexivity|]].
  - apply (no_cone_first_conic_candidate _ _ _ "SolverB" ["SolverA"]);
      [by left | vm_compute; reflexivity ..].
  - apply (no_cone_first_conic_candidate _ _ _ "SolverB" ["SolverA"]);
      [by right | vm_compute; reflexivity ..].
Defined.

(** The planner completes a step list in one case only: the QP pipeline is
    not entered (the problem is not recognised as a QP, or no candidate is a
    QP solver), the atoms call for no cone, and the first conic solver among
    the candidates has its entry in [SLV_MAP]; the list is then the
    orientation prefix followed by the conic pipeline on that solver.  In
    particular a problem recognised as a QP falls back to the conic pipeline
    when no QP solver is a candidate. *)
Theorem choose_pipeline_completes_iff g problem candidates steps :
  choose_pipeline g problem candidates = Ok steps ↔
  (is_qp problem = false ∨ filter (λ s, s ∈ candidates) (QP_SOLVERS g) = []) ∧
  required_cones g (atoms problem) = [] ∧
  ∃ s slv,
    head (filter (λ s, s ∈ candidates) (CONIC_SOLVERS g)) = Some s ∧
    SLV_MAP g !! s = Some slv ∧
    steps = initial_reductions problem ++ [Dcp2Cone; ConeMatrixStuffing; ConicSolver slv].
Proof.
  split.
  - intros H. split; [|by apply choose_pipeline_Ok].
    apply (proj1 (qp_guard_false g problem candidates)).
    destruct (bool_decide _ && is_qp problem) eqn:Hguard; [|done].
    by rewrite (choose_pipeline_qp_branch _ _ _ Hguard) in H.
  - intros (Hguard & Hcones & s & slv & Hhd & Hslv & ->).
    apply (proj2 (qp_guard_false g problem candidates)) in Hguard.
    rewrite (choose_pipeline_conic_branch _ _ _ s Hguard Hhd Hcones).
    unfold getitem. by rewrite Hslv.
Qed.

Lemma py_filter_mip_Raise g (l : list string) e :
  py_filter (λ s, slv ← getitem (SLV_MAP g) s; Ok (MIP_CAPABLE slv)) l = Raise e →
  ∃ k, k ∈ l ∧ SLV_MAP g !! k = None ∧ e = KeyError k.
Proof.
  induction l as [|x l IH]; [done|]. simpl.
  destruct (SLV_MAP g !! x) as [slv|] eqn:Hx.
  - assert (getitem (SLV_MAP g) x = Ok slv) as ->
      by (unfold getitem; by rewrite Hx).
    simpl. destruct (py_filter _ l) as [r|e'] eqn:Hr; [done|]. simpl. intros [= <-].
    destruct (IH eq_refl) as (k & Hk & Hnone & ->).
    exists k. split; [by apply elem_of_cons; right | done].
  - assert (getitem (SLV_MAP g) x = Raise (KeyError x)) as ->
      by (unfold getitem; by rewrite Hx).
    simpl. intros [= <-]. exists x. split; [by apply elem_of_cons; left | done].
Qed.

Lemma choose_pipeline_Raise g problem candidates e :
  choose_pipeline g problem candidates = Raise e →
  (is_qp problem = true ∧ e = AttributeError "list" "name") ∨
  e = SolverError
        "Problem could not be reduced to a QP, and no conic solvers exist among candidate solvers (%s)."
        [ArgList candidates] ∨
  (required_cones g (atoms problem) ≠ [] ∧ e = NameError "s") ∨
  (∃ k, k ∈ candidates ∧ SLV_MAP g !! k = None ∧ e = KeyError k).
Proof.
  destruct (bool_decide (filter (λ s, s ∈ candidates) (QP_SOLVERS g) ≠ [])
            && is_qp problem) eqn:Hguard.
  { rewrite (choose_pipeline_qp_branch _ _ _ Hguard). intros [= <-]. left.
    by apply andb_true_iff in Hguard as [_ ->]. }
  destruct (head (filter (λ s, s ∈ candidates) (CONIC_SOLVERS g))) as [s|] eqn:Hhd.
  - destruct (required_cones g (atoms problem)) as [|c cones] eqn:Hcones.
    + rewrite (choose_pipeline_conic_branch _ _ _ s Hguard Hhd Hcones).
      unfold getitem. destruct (SLV_MAP g !! s) eqn:Hs; [done|].
      intros [= <-]. do 3 right. exists s. split; [|done].
      apply head_Some_elem_of in Hhd. by apply list_elem_of_filter in Hhd as [? _].
    + intros He. right; right; left. split; [done|].
      assert (s ∈ CONIC_SOLVERS g ∧ s ∈ candidates) as [Hs1 Hs2].
      { apply head_Some_elem_of in Hhd. apply list_elem_of_filter in Hhd. tauto. }
      unfold choose_pipeline in He. cbv zeta in He. rewrite Hguard in He.
      destruct (sorted_by_index_filter_Ok (λ s, s ∈ candidates) (CONIC_SOLVERS g))
        as [todo Htodo].
      pose proof (sorted_by_index_head _ _ _ Htodo) as Hhd'. rewrite Hhd in Hhd'.
      destruct (filter (λ s, s ∈ candidates) (CONIC_SOLVERS g)) as [|s0 rest]; [done|].
      rewrite Htodo, Hcones in He. simpl in He.
      destruct todo as [|solver todo]; [done|].
      rewrite conic_loop_cons_cones in He. by injection He as <-.
  - intros He. right; left.
    unfold choose_pipeline in He. cbv zeta in He. rewrite Hguard in He.
    destruct (filter (λ s, s ∈ candidates) (CONIC_SOLVERS g)); [|done].
    by injection He as <-.
Qed.

(** The exceptions of the planning, in the order the source can raise
    them; among these there is no [ValueError], no [IndexError], no
    [TypeError], and not the [SolverError] of lines 96-98. *)
Theorem planning_exceptions g problem solver e :
  planned_reductions g problem solver = Raise e →
  (∃ s, solver = Some s ∧ (s ∉ INSTALLED_SOLVERS g) ∧
        e = SolverError "Solver %s is not installed" [ArgStr s]) ∨
  (is_dcp problem = false ∧ e = DCPError "Problem does not follow DCP rules.") ∨
  (∃ k, SLV_MAP g !! k = None ∧ e = KeyError k) ∨
  (is_mip problem = true ∧
   e = SolverError
         "Problem is mixed integer, but candidate solvers (%s) are not MIP-capable."
         [ArgList []]) ∨
  (is_qp problem = true ∧ e = AttributeError "list" "name") ∨
  (∃ candidates,
     e = SolverError
           "Problem could not be reduced to a QP, and no conic solvers exist among candidate solvers (%s)."
           [ArgList candidates]) ∨
  (required_cones g (atoms problem) ≠ [] ∧ e = NameError "s").
Proof.
  unfold planned_reductions.
  destruct (resolve_candidates g solver) as [candidates|e0] eqn:Hres; simpl.
  2: { intros [= <-]. left. destruct solver as [s|]; [|done]. simpl in Hres.
       case_bool_decide as Hs; [done|]. injection Hres as <-. eauto. }
  destruct (is_dcp problem); simpl; [|intros [= <-]; right; left; done].
  destruct (filter_mip g problem candidates) as [narrowed|e1] eqn:Hmip; simpl.
  2: { intros [= <-]. unfold filter_mip in Hmip.
       destruct (is_mip problem); [|done].
       destruct (py_filter _ candidates) as [r|e2] eqn:Hr; simpl in Hmip.
       - destruct r; [|done]. injection Hmip as <-. do 3 right. left. done.
       - injection Hmip as <-. apply py_filter_mip_Raise in Hr as (k & _ & Hk & ->).
         right; right; left. eauto. }
  intros He. apply choose_pipeline_Raise in He as [He|[He|[He|He]]].
  - do 4 right. by left.
  - do 5 right. left. eauto.
  - do 6 right. done.
  - destruct He as (k & _ & Hk & ->). right; right; left. eauto.
Qed.

Lemma planning_exceptions_witness :
  (∃ s, @None string = Some s ∧ (s ∉ INSTALLED_SOLVERS Examples.registry_AB) ∧
        NameError "s" = SolverError "Solver %s is not installed" [ArgStr s]) ∨
  (is_dcp Examples.socp = false ∧
   NameError "s" = DCPError "Problem does not follow DCP rules.") ∨
  (∃ k, SLV_MAP Examples.registry_AB !! k = None ∧ NameError "s" = KeyError k) ∨
  (is_mip Examples.socp = true ∧
   NameError "s" =
     SolverError
       "Problem is mixed integer, but candidate solvers (%s) are not MIP-capable."
       [ArgList []]) ∨
  (is_qp Examples.socp = true ∧ NameError "s" = AttributeError "list" "name") ∨
  (∃ candidates,
     NameError "s" =
       SolverError
         "Problem could not be reduced to a QP, and no conic solvers exist among candidate solvers (%s)."
         [ArgList candidates]) ∨
  (required_cones Examples.registry_AB (atoms Examples.socp) ≠ [] ∧
   NameError "s" = NameError "s").
Proof.
  apply (planning_exceptions Examples.registry_AB Examples.socp None). reflexivity.
Defined.

(** ** A requested solver *)

Lemma filter_mip_subseteq g problem candidates narrowed x :
  filter_mip g problem candidates = Ok narrowed → x ∈ narrowed → x ∈ candidates.
Proof.
  intros H Hx. apply filter_mip_Ok in H. destruct (is_mip problem).
  - destruct H as [-> _]. by apply list_elem_of_filter in Hx as [_ ?].
  - by subst.
Qed.

(** A step list completed for a requested solver ends with that solver,
    which is then installed, conic and present in [SLV_MAP]. *)
Theorem requested_solver_ends_plan g problem s steps :
  planned_reductions g problem (Some s) = Ok steps →
  s ∈ INSTALLED_SOLVERS g ∧ s ∈ CONIC_SOLVERS g ∧
  ∃ slv, SLV_MAP g !! s = Some slv ∧
    steps = initial_reductions problem ++ [Dcp2Cone; ConeMatrixStuffing; ConicSolver slv].
Proof.
  intros H.
  apply planned_reductions_Ok in H as (_ & candidates & narrowed & Hres & Hn & H).
  simpl in Hres. case_bool_decide as Hinst; [|done]. injection Hres as <-.
  apply choose_pipeline_Ok in H as (_ & s' & slv & Hhd & Hslv & ->).
  apply head_Some_elem_of, list_elem_of_filter in Hhd as [Hs' Hconic].
  apply (filter_mip_subseteq _ _ _ _ _ Hn), list_elem_of_singleton in Hs' as ->.
  eauto.
Qed.

Lemma requested_solver_ends_plan_witness :
  "ECOS" ∈ INSTALLED_SOLVERS Examples.registry ∧
  "ECOS" ∈ CONIC_SOLVERS Examples.registry ∧
  ∃ slv, SLV_MAP Examples.registry !! "ECOS" = Some slv ∧
    [Dcp2Cone; ConeMatrixStuffing; ConicSolver Examples.ECOS] =
    initial_reductions Examples.lp_min ++ [Dcp2Cone; ConeMatrixStuffing; ConicSolver slv].
Proof.
  apply (requested_solver_ends_plan Examples.registry Examples.lp_min "ECOS").
  vm_compute. reflexivity.
Defined.

(** ** The order of the installed solvers *)






(** ** A solver without an entry in [SLV_MAP] *)

Lemma py_filter_mip_KeyError g (pre post : list string) s :
  Forall (λ x, is_Some (SLV_MAP g !! x)) pre → SLV_MAP g !! s = None →
  py_filter (λ s, slv ← getitem (SLV_MAP g) s; Ok (MIP_CAPABLE slv)) (pre ++ s :: post) =
    Raise (KeyError s).
Proof.
  intros Hpre Hs.
  assert (getitem (SLV_MAP g) s = Raise (KeyError s)) as Hget
    by (unfold getitem; by rewrite Hs).
  induction Hpre as [|x pre [slv Hx] _ IH]; simpl.
  - by rewrite Hget.
  - assert (getitem (SLV_MAP g) x = Ok slv) as ->
      by (unfold getitem; by rewrite Hx).
    simpl. by rewrite IH.
Qed.

(** For a mixed-integer problem, the first candidate without an entry in
    [SLV_MAP] makes the planner raise [KeyError] on its name, whatever
    the candidates after it are. *)
Theorem mip_filter_missing_entry g problem solver pre s post :
  is_dcp problem = true → is_mip problem = true →
  resolve_candidates g solver = Ok (pre ++ s :: post) →
  Forall (λ x, is_Some (SLV_MAP g !! x)) pre → SLV_MAP g !! s = None →
  planned_reductions g problem solver = Raise (KeyError s).
Proof.
  intros Hdcp Hmip Hres Hpre Hs. unfold planned_reductions.
  rewrite Hres. simpl. rewrite Hdcp. simpl. unfold filter_mip.
  by rewrite Hmip, (py_filter_mip_KeyError g pre post s Hpre Hs).
Qed.

Lemma mip_filter_missing_entry_witness :
  planned_reductions Variations.registry_missing Examples.milp None =
    Raise (KeyError "CVXOPT").
Proof.
  apply (mip_filter_missing_entry _ _ _ ["ECOS_BB"] "CVXOPT" ["ECOS"]);
    try reflexivity.
  repeat constructor. by_evaluation.
Defined.

(** For a problem that is not mixed-integer nothing is looked up before a
    solver is chosen: when the first conic candidate has no entry in
    [SLV_MAP], the planner raises [KeyError] on its name at line 94, even
    if conic candidates ranked after it have one. *)
Theorem conic_solver_missing_entry g problem s :
  is_dcp problem = true → is_mip problem = false →
  is_qp problem = false ∨
    filter (λ x, x ∈ INSTALLED_SOLVERS g) (QP_SOLVERS g) = [] →
  required_cones g (atoms problem) = [] →
  head (filter (λ x, x ∈ INSTALLED_SOLVERS g) (CONIC_SOLVERS g)) = Some s →
  SLV_MAP g !! s = None →
  planned_reductions g problem None = Raise (KeyError s).
Proof.
  intros Hdcp Hmip Hguard Hcones Hhd Hs. unfold planned_reductions. simpl.
  rewrite Hdcp. simpl. unfold filter_mip. rewrite Hmip. simpl.
  apply (proj2 (qp_guard_false g problem (INSTALLED_SOLVERS g))) in Hguard.
  rewrite (choose_pipeline_conic_branch _ _ _ s Hguard Hhd Hcones).
  unfold getitem. by rewrite Hs.
Qed.

Lemma conic_solver_missing_entry_witness :
  is_Some (SLV_MAP Variations.registry_missing !! "ECOS_BB") ∧
  planned_reductions Variations.registry_missing Examples.lp_max None =
    Raise (KeyError "CVXOPT").
Proof.
  split; [by_evaluation|].
  apply conic_solver_missing_entry; try reflexivity. by left.
Defined.

(** ** The constructor on a list with a last element *)

(** When [self.reductions] is a list with a last element, the constructor
    keeps the front as [problem_reductions] and the last element as
    [solver] if that one is a solver, and raises the [ValueError] of line
    107 otherwise; the argument plays no part. *)
Theorem init_on_list_with_last front r l :
  SolvingChain.init (Some (front ++ [r])) l =
    if isinstance_Solver r
    then Ok {| SolvingChain.problem_reductions := front; SolvingChain.solver := r |}
    else Raise (ValueError "Solving chains must terminate with a Solver.").
Proof.
  unfold SolvingChain.init. rewrite last_snoc, removelast_last.
  by destruct (isinstance_Solver r).
Qed.

(** Whatever [Chain] provides as [self.reductions], the chain the planner
    returns is the same for every problem and every requested solver: it is
    made of that attribute, not of the step list that was planned. *)
Theorem returned_chain_ignores_problem g problem solver problem' solver' chain chain' :
  construct_solving_chain g problem solver = Ok chain →
  construct_solving_chain g problem' solver' = Ok chain' →
  chain = chain' ∧
  Chain_reductions g =
    Some (SolvingChain.problem_reductions chain ++ [SolvingChain.solver chain]).
Proof.
  unfold construct_solving_chain. intros H H'.
  apply bind_Ok in H as (steps & _ & H). apply bind_Ok in H' as (steps' & _ & H').
  assert (SolvingChain.init (Chain_reductions g) steps =
          SolvingChain.init (Chain_reductions g) steps') as Heq by done.
  rewrite H, H' in Heq. injection Heq as <-. split; [done|].
  unfold SolvingChain.init in H.
  destruct (Chain_reductions g) as [rs|]; [|done].
  destruct (last rs) as [r|] eqn:Hlast; [|done].
  destruct (isinstance_Solver r); [|done]. simpl in H. injection H as <-. simpl.
  f_equal. destruct rs as [|r0 rs _] using rev_ind; [done|].
  rewrite last_snoc in Hlast. injection Hlast as ->. by rewrite removelast_last.
Qed.

Lemma returned_chain_ignores_problem_witness :
  {| SolvingChain.problem_reductions := []; SolvingChain.solver := ConicSolver Examples.SCS |} =
  {| SolvingChain.problem_reductions := []; SolvingChain.solver := ConicSolver Examples.SCS |} ∧
  Chain_reductions Variations.registry_class_attribute =
    Some ([] ++ [ConicSolver Examples.SCS]).
Proof.
  apply (returned_chain_ignores_problem Variations.registry_class_attribute
           Examples.lp_max None Examples.milp (Some "ECOS_BB"));
    vm_compute; reflexivity.
Defined.

(** ** The required cones *)

Lemma cone_flag_sublist (P : string → Prop) `{∀ x, Decision (P x)}
    (atoms atoms' : list string) (k : constraint_class) :
  atoms ⊆ atoms' →
  (if bool_decide (Exists P atoms) then [k] else []) `sublist_of`
  (if bool_decide (Exists P atoms') then [k] else []).
Proof.
  intros Hsub. case_bool_decide as Hex; [|apply sublist_nil_l].
  rewrite bool_decide_eq_true_2; [done|].
  apply Exists_exists in Hex as (x & Hx & HP). apply Exists_exists. eauto.
Qed.

(** The required cones always come in the order [SOC], [ExpCone], [PSD],
    each at most once, and atoms added to a problem never take a cone
    away. *)
Theorem required_cones_ordered_monotone g (atoms atoms' : list string) :
  required_cones g atoms `sublist_of` [SOC; ExpCone; PSD] ∧
  (atoms ⊆ atoms' → required_cones g atoms `sublist_of` required_cones g atoms').
Proof.
  unfold required_cones. split.
  - change [SOC; ExpCone; PSD] with ([SOC] ++ [ExpCone] ++ [PSD]).
    repeat apply sublist_app; by case_bool_decide; [|apply sublist_nil_l].
  - intros Hsub. repeat apply sublist_app; by apply cone_flag_sublist.
Qed.
